(** * djvubind: the command batcher, the book and page models, the config reader

    A shallow embedding of the parts of [djvubind/utils.py],
    [djvubind/organizer.py] and the older [Djvubind/organizer.py] that the
    specification talks about, with the properties the specification claims
    for them.

    Conventions.
    - A Python [str] is a [string]: a sequence of code points below 256.
      [len] is the number of code points.
    - An exception that leaves a function is a value of [exn] on the left of
      a sum; the state the function leaves behind is returned next to it.
    - A [while] loop is a body (one iteration) run under a bound on the number
      of iterations; [None] means the bound was reached before the loop
      condition became false. *)

From Stdlib Require Import ZArith List Ascii String Lia SpecFloat.
From stdpp Require Import base option list gmap strings pretty sorting.

#[local] Open Scope Z_scope.

(** ** Python strings *)

Module PyStr.

(** The one-character string made of a double quote (code point 34). *)
Definition dquote : string := String "034"%char EmptyString.

(** The line feed. *)
Definition LF : string := String "010"%char EmptyString.

(** [len(s)] *)
Definition len (s : string) : Z := Z.of_nat (String.length s).

(** [c.isspace()] for a code point below 256: the ASCII white space, the
    four information separators, NEL and the no-break space. *)
Definition isspace (c : ascii) : bool :=
  match c with
  | "009" | "010" | "011" | "012" | "013"
  | "028" | "029" | "030" | "031" | " "
  | "133" | "160" => true
  | _ => false
  end%char.

(** [s.lstrip()] *)
Fixpoint lstrip (s : string) : string :=
  match s with
  | EmptyString => EmptyString
  | String c s' => if isspace c then lstrip s' else s
  end.

(** [s.rstrip()] *)
Fixpoint rstrip (s : string) : string :=
  match s with
  | EmptyString => EmptyString
  | String c s' =>
      match rstrip s' with
      | EmptyString => if isspace c then EmptyString else String c EmptyString
      | r => String c r
      end
  end.

(** [s.strip()] *)
Definition strip (s : string) : string := rstrip (lstrip s).

(** [s.startswith(p)] *)
Definition startswith (p s : string) : bool := String.prefix p s.

(** [c in s] for a one-character [c] *)
Fixpoint contains (c : ascii) (s : string) : bool :=
  match s with
  | EmptyString => false
  | String d s' => if Ascii.eqb d c then true else contains c s'
  end.

(** [s.split(c)] for a one-character separator: never empty, and empty
    pieces are kept. *)
Fixpoint split (c : ascii) (s : string) : list string :=
  match s with
  | EmptyString => [EmptyString]
  | String d s' =>
      if Ascii.eqb d c then EmptyString :: split c s'
      else match split c s' with
           | [] => [String d EmptyString]
           | w :: ws => String d w :: ws
           end
  end.

(** [s.split(c, 1)]: cut at the first [c]; one piece when there is none. *)
Fixpoint split1 (c : ascii) (s : string) : list string :=
  match s with
  | EmptyString => [EmptyString]
  | String d s' =>
      if Ascii.eqb d c then [EmptyString; s']
      else match split1 c s' with
           | w :: ws => String d w :: ws
           | [] => [String d EmptyString]
           end
  end.

(** [c * n]: the character [c] repeated [n] times. *)
Definition repeated (c : ascii) (n : N) : string :=
  N.iter n (String c) EmptyString.

(** What reading a text file does to line ends: a carriage return, alone
    or before a line feed, is read as a line feed. *)
Fixpoint universal_newlines (s : string) : string :=
  match s with
  | EmptyString => EmptyString
  | String "013" s' =>
      match s' with
      | String "010" _ => universal_newlines s'
      | _ => String "010" (universal_newlines s')
      end
  | String c s' => String c (universal_newlines s')
  end.

(** The lines of a text, each with its line feed; the last one may lack
    it. *)
Fixpoint lines_of (s : string) : list string :=
  match s with
  | EmptyString => []
  | String c s' =>
      if Ascii.eqb c "010" then String c EmptyString :: lines_of s'
      else match lines_of s' with
           | [] => [String c EmptyString]
           | l :: ls => String c l :: ls
           end
  end.

(** [sep.join(l)] *)
Fixpoint join (sep : string) (l : list string) : string :=
  match l with
  | [] => EmptyString
  | [x] => x
  | x :: l' => x +:+ sep +:+ join sep l'
  end.

End PyStr.

Import PyStr.

(** ** Python numbers

    [int(s)], [float(s)], [x * y] on floats and [round(x)], as far as
    [Page.get_dpi] uses them.  A [float] is an IEEE 754 binary64 number
    ([spec_float] at precision 53), and every operation rounds to nearest,
    ties to even. *)

(** Exceptions.  [ValueError msg] is [raise ValueError(msg)];
    [InvalidLiteral f arg] is the [ValueError] that the built-in [f] raises
    for an argument it cannot read (its message quotes the argument);
    [Failure what] is whatever a collaborator outside these files raises. *)
Inductive exn :=
| ValueError (msg : string)
| InvalidLiteral (builtin : string) (arg : string)
| OverflowError (msg : string)
| IndexError (msg : string)
| UnicodeDecodeError
| FileNotFoundError (path : string)
| Failure (what : string).

Module PyNum.

Definition float := spec_float.
Definition prec : Z := 53.
Definition emax : Z := 1024.

Definition float_mul : float -> float -> float := SFmul prec emax.
Definition float_div : float -> float -> float := SFdiv prec emax.

(** The literal [2.54]: the binary64 number nearest to 254/100. *)
Definition float_2_54 : float := S754_finite false 0x1451EB851EB852 (-51).

(** The value of a decimal digit: the code points 48 to 57. *)
Definition digit_of (c : ascii) : option Z :=
  let n := Z.of_N (N_of_ascii c) in
  if (48 <=? n) && (n <=? 57) then Some (n - 48) else None.

(** The rest of a [digitpart] (digits, with single underscores between
    digits): the value and the number of digits read so far go in, and come
    out with what follows the last digit. *)
Fixpoint digits_tail (v n : Z) (s : string) : Z * Z * string :=
  match s with
  | EmptyString => (v, n, s)
  | String c s' =>
      match digit_of c with
      | Some d => digits_tail (10 * v + d) (n + 1) s'
      | None =>
          if Ascii.eqb c "_" then
            match s' with
            | String c' s'' =>
                match digit_of c' with
                | Some d => digits_tail (10 * v + d) (n + 1) s''
                | None => (v, n, s)
                end
            | EmptyString => (v, n, s)
            end
          else (v, n, s)
      end
  end.

(** A [digitpart] at the head of [s], if there is one. *)
Definition digitpart (s : string) : option (Z * Z * string) :=
  match s with
  | String c s' =>
      match digit_of c with
      | Some d => Some (digits_tail d 1 s')
      | None => None
      end
  | EmptyString => None
  end.

(** The white space that [int] and [float] skip at both ends of their
    argument: the ASCII white space, NEL and the no-break space, but not the
    four information separators that [strip] removes. *)
Definition skipped (c : ascii) : bool :=
  match c with
  | "009" | "010" | "011" | "012" | "013" | " " | "133" | "160" => true
  | _ => false
  end%char.

Fixpoint skip_left (s : string) : string :=
  match s with
  | EmptyString => EmptyString
  | String c s' => if skipped c then skip_left s' else s
  end.

Fixpoint skip_right (s : string) : string :=
  match s with
  | EmptyString => EmptyString
  | String c s' =>
      match skip_right s' with
      | EmptyString => if skipped c then EmptyString else String c EmptyString
      | r => String c r
      end
  end.

Definition trim (s : string) : string := skip_right (skip_left s).

(** An optional sign: [true] for a minus. *)
Definition sign (s : string) : bool * string :=
  match s with
  | String "-" s' => (true, s')
  | String "+" s' => (false, s')
  | _ => (false, s)
  end.

(** [int(s)] for a [str] in base 10.  (The limit that recent interpreters
    put on the number of digits, 4300 unless configured, is left out.) *)
Definition int (s : string) : exn + Z :=
  let '(neg, t) := sign (trim s) in
  match digitpart t with
  | Some (v, _, EmptyString) => inr (if neg then - v else v)
  | _ => inl (InvalidLiteral "int" s)
  end.

Definition lower_char (c : ascii) : ascii :=
  let n := N_of_ascii c in
  if ((65 <=? n) && (n <=? 90))%N then ascii_of_N (n + 32) else c.

Fixpoint lower (s : string) : string :=
  match s with
  | EmptyString => EmptyString
  | String c s' => String (lower_char c) (lower s')
  end.

(** The binary64 number nearest to [(-1)^neg * m * 10^e]. *)
Definition of_decimal (neg : bool) (m e : Z) : float :=
  match m with
  | Zpos p =>
      match Z.to_pos (10 ^ Z.max e 0), Z.to_pos (10 ^ Z.max (- e) 0) with
      | up, down =>
          float_div (S754_finite neg (p * up) 0) (S754_finite false down 0)
      end
  | _ => S754_zero neg
  end.

(** An optional exponent [e[+-]digitpart]; [None] for a malformed one. *)
Definition exponent (s : string) : option (Z * string) :=
  match s with
  | String c s' =>
      if Ascii.eqb (lower_char c) "e" then
        let '(neg, t) := sign s' in
        match digitpart t with
        | Some (v, _, r) => Some (if neg then - v else v, r)
        | None => None
        end
      else Some (0, s)
  | EmptyString => Some (0, s)
  end.

(** [float(s)] for a [str]. *)
Definition float_of_str (s : string) : exn + float :=
  let '(neg, t) := sign (trim s) in
  let l := lower t in
  if bool_decide (l = "inf" \/ l = "infinity") then inr (S754_infinity neg)
  else if bool_decide (l = "nan") then inr S754_nan
  else
    let '(vi, ni, r1) := default (0, 0, t) (digitpart t) in
    let '(vf, nf, r2) :=
      match r1 with
      | String "." r => default (0, 0, r) (digitpart r)
      | _ => (0, 0, r1)
      end in
    match exponent r2 with
    | Some (e, EmptyString) =>
        if ni + nf =? 0 then inl (InvalidLiteral "float" s)
        else inr (of_decimal neg (vi * 10 ^ nf + vf) (e - nf))
    | _ => inl (InvalidLiteral "float" s)
    end.

(** The integer nearest to the fraction [n / d] (for [0 < d]), ties to
    even. *)
Definition nearest_even (n d : Z) : Z :=
  let q := n / d in
  match 2 * (n mod d) ?= d with
  | Lt => q
  | Gt => q + 1
  | Eq => if Z.even q then q else q + 1
  end.

(** [round(x)] with one argument: the nearest integer, ties to even. *)
Definition round (x : float) : exn + Z :=
  match x with
  | S754_zero _ => inr 0
  | S754_infinity _ =>
      inl (OverflowError "cannot convert float infinity to integer")
  | S754_nan => inl (ValueError "cannot convert float NaN to integer")
  | S754_finite s m e =>
      let n :=
        if 0 <=? e then Z.pos m * 2 ^ e
        else nearest_even (Z.pos m) (2 ^ (- e)) in
      inr (if s then - n else n)
  end.

(** [str(n)] for an integer. *)
Definition str_int (n : Z) : string := pretty n.

(** [b.decode('ascii')] for a byte string. *)
Definition decode_ascii (b : string) : exn + string :=
  if forallb (fun c => (N_of_ascii c <? 128)%N) (list_ascii_of_string b)
  then inr b else inl UnicodeDecodeError.

End PyNum.

(** ** [djvubind/utils.py] *)

Module Utils.

(** *** [split_cmd]

    The loop works on three variables: the [buffer] being filled, the
    [files] still to place (the caller's list, popped from the front) and
    the commands closed so far. *)
Record batcher := Batcher {
  buffer : string;
  files : list string;
  cmds : list string
}.

(** The ceiling on the length of a command. *)
Definition ceiling : Z := 32000.

(** The test [len(buffer) + len(files[0]) + len(end) + 3 < 32000]. *)
Definition fits (buffer f end_ : string) : bool :=
  len buffer + len f + len end_ + 3 <? ceiling.

(** One iteration of [while len(files) > 0]; [None] when the condition is
    false.  [start] and [end_] are the rebound variables, that is the
    prefix followed by a space and the suffix preceded by a space. *)
Definition loop_body (start end_ : string) (st : batcher) : option batcher :=
  match files st with
  | [] => None
  | f :: rest =>
      if fits (buffer st) f end_
      then Some (Batcher (buffer st +:+ (" " +:+ dquote) +:+ f +:+ dquote)
                         rest (cmds st))
      else Some (Batcher start (f :: rest)
                         (cmds st ++ [buffer st +:+ rstrip end_]))
  end.

(** The loop, run for at most [fuel] iterations. *)
Fixpoint while_loop (fuel : nat) (start end_ : string) (st : batcher)
  : option batcher :=
  match loop_body start end_ st with
  | None => Some st
  | Some st' =>
      match fuel with
      | O => None
      | S fuel' => while_loop fuel' start end_ st'
      end
  end.

(** The state reached after exactly [n] iterations, when the loop runs
    that long. *)
Fixpoint iterate (n : nat) (start end_ : string) (st : batcher)
  : option batcher :=
  match n with
  | O => Some st
  | S n' =>
      match loop_body start end_ st with
      | None => None
      | Some st' => iterate n' start end_ st'
      end
  end.

(** [split_cmd(start, files, end)]; the [print] at its head writes to the
    standard output and does not take part in the result. *)
Definition split_cmd (fuel : nat) (start : string) (files : list string)
    (end_ : string) : option (list string) :=
  let start := start +:+ " " in
  let end_ := " " +:+ end_ in
  match while_loop fuel start end_ (Batcher start files []) with
  | None => None
  | Some st => Some (cmds st ++ [buffer st +:+ rstrip end_])
  end.

(** What placing a name adds to a buffer, and the command made of a group
    of names between the rebound [start] and [end_]. *)
Definition quoted (f : string) : string := (" " +:+ dquote) +:+ f +:+ dquote.

Definition render (start end_ : string) (g : list string) : string :=
  start +:+ foldr String.append EmptyString (quoted <$> g) +:+ rstrip end_.

(** A name can be placed in a batch of its own:
    [len(prefix) + len(name) + len(suffix) + 5 < 32000]. *)
Definition placeable (prefix suffix name : string) : Prop :=
  len prefix + len name + len suffix + 5 < ceiling.

(** A state from which the loop cannot leave: a name that fits no fresh
    buffer is still to place, and the buffer is at least as long as a fresh
    one. *)
Definition stuck (start : string) (bad : string) (after : list string)
    (st : batcher) : Prop :=
  len start <= len (buffer st) /\ exists l, files st = l ++ bad :: after.

(** The length invariant of the loop: the closed commands are within the
    ceiling, and the buffer either leaves room for the suffix or is a fresh
    one, which is closed only if [fresh_ok]. *)
Definition bounded (start end_ : string) (fresh_ok : Prop) (st : batcher)
  : Prop :=
  Forall (fun c => len c <= ceiling) (cmds st) /\
  (len (buffer st) + len end_ < ceiling \/
   (buffer st = start /\ (files st = [] -> fresh_ok))).

(** *** [parse_config]

    The body of [for line in handle], on the dictionary filled so far.  The
    last branch is never taken: a line that contains [=] splits in two. *)
Definition parse_config_line (options : gmap string string) (line : string)
  : gmap string string :=
  let line := strip line in
  let line := if startswith "#" line then EmptyString else line in
  if contains "=" line then
    match split1 "=" line with
    | [option; value] => <[strip option := strip value]> options
    | _ => options
    end
  else options.

(** [parse_config(filename)], on a file system that maps a name to the text
    of the file. *)
Definition parse_config (fs : gmap string string) (filename : string)
  : exn + gmap string string :=
  match fs !! filename with
  | None => inl (FileNotFoundError filename)
  | Some text =>
      inr (fold_left parse_config_line (lines_of (universal_newlines text)) ∅)
  end.

End Utils.

Import Utils.

(** ** [djvubind/organizer.py] *)

Module Organizer.

(** What [print] writes, call by call. *)
Inductive stream := stdout | stderr.

Definition output : Type := stream * string.

Module Page.

Record t := mk {
  path : string;
  bitonal : option bool;
  dpi : Z;
  text : string;
  title : option string
}.

(** [Page(path)], where [abspath] is [os.path.abspath]. *)
Definition init (abspath : string -> string) (p : string) : t :=
  mk (abspath p) None 0 EmptyString None.

Definition set_dpi (d : Z) (p : t) : t :=
  mk (path p) (bitonal p) d (text p) (title p).

(** The command that [Page.get_dpi] runs. *)
Definition identify_cmd (p : t) : string :=
  "identify -ping -format %x " +:+ dquote +:+ path p +:+ dquote.

Section GetDpi.

(** The command runner as [Page] calls it, [utils.execute(cmd,
    capture=True)]: the bytes the command wrote, or an exception.
    ([utils.execute] as [utils.py] now defines it takes the command alone and
    always captures; the call is modelled against the runner [Page] expects.) *)
Variable execute : string -> exn + string.

(** [Page.get_dpi]: the exception raised, if any, and the page as the call
    leaves it. *)
Definition get_dpi (p : t) : (exn + unit) * t :=
  match execute (identify_cmd p) with
  | inl e => (inl e, p)
  | inr bytes =>
      match PyNum.decode_ascii bytes with
      | inl e => (inl e, p)
      | inr s =>
          let resolution := split " " s in
          match resolution !! 1%nat with
          | None => (inl (IndexError "list index out of range"), p)
          | Some unit_ =>
              let value := default EmptyString (resolution !! 0%nat) in
              if String.eqb unit_ "PixelsPerInch" then
                match PyNum.int value with
                | inl e => (inl e, p)
                | inr d => (inr (), set_dpi d p)
                end
              else if String.eqb unit_ "PixelsPerCentimeter" then
                match PyNum.float_of_str value with
                | inl e => (inl e, p)
                | inr x =>
                    match PyNum.round (PyNum.float_mul x PyNum.float_2_54) with
                    | inl e => (inl e, p)
                    | inr d => (inr (), set_dpi d p)
                    end
                end
              else
                (inl (ValueError ("Unknown image resolution unit " +:+ dquote
                                  +:+ value +:+ dquote)), p)
          end
      end
  end.

End GetDpi.

End Page.

Module Book.

Record t := mk {
  pages : list Page.t;
  suppliments : gmap string (option string);
  dpi : option Z
}.

(** [Book()] *)
Definition init : t :=
  mk [] (<["cover_front" := None]> (<["cover_back" := None]>
        (<["metadata" := None]> (<["bookmarks" := None]> ∅)))) None.

(** [Book.insert_page] *)
Definition insert_page (abspath : string -> string) (p : string) (b : t) : t :=
  mk (pages b ++ [Page.init abspath p]) (suppliments b) (dpi b).

(** The three lines printed for a page whose dpi differs from the running
    one. *)
Definition mismatch (p : Page.t) : list output :=
  [(stdout, "msg: [organizer.Book.analyze()] " +:+ Page.path p);
   (stderr, "     Page dpi is different from the previous page.");
   (stderr,
    "     If you encounter problems with minidjvu, this is probably why.")].

(** The body of [for page in self.pages], on [self.dpi] and what has been
    printed so far. *)
Definition get_dpi_body (st : option Z * list output) (page : Page.t)
  : option Z * list output :=
  let '(d, out) := st in
  let out :=
    match d with
    | Some d' =>
        if bool_decide (Page.dpi page <> d') then out ++ mismatch page else out
    | None => out
    end in
  (Some (Page.dpi page), out).


(** [Book.get_dpi]: the book as the call leaves it, and what it printed. *)
Definition get_dpi (b : t) : t * list output :=
  let '(d, out) := fold_left get_dpi_body (pages b) (dpi b, []) in
  (mk (pages b) (suppliments b) d, out).

(** [str(x)] for [None], [True] and [False], and for [None] or a [str]. *)
Definition str_bitonal (x : option bool) : string :=
  match x with
  | None => "None"
  | Some true => "True"
  | Some false => "False"
  end.

Definition str_title (x : option string) : string :=
  match x with
  | None => "None"
  | Some s => s
  end.

(** The row of a page, as joined in the loop of [save_report]. *)
Definition entry (page : Page.t) : string :=
  join ", " [Page.path page; str_bitonal (Page.bitonal page);
             PyNum.str_int (Page.dpi page); str_title (Page.title page);
             PyNum.str_int (len (Page.text page))].

(** The body of [for page in self.pages] in [save_report], on what has been
    written to the handle so far: two calls of [write]. *)
Definition save_report_body (written : string) (page : Page.t) : string :=
  (written +:+ entry page) +:+ LF.

(** [Book.save_report], on a file system that maps a name to the text of
    the file; opening with mode ['w'] starts from an empty file. *)
Definition save_report (b : t) (fs : gmap string string) : gmap string string :=
  let written := EmptyString +:+ ("Path, Bitonal, DPI, Title, OCR" +:+ LF) in
  <["book.csv" := fold_left save_report_body (pages b) written]> fs.

End Book.

End Organizer.

(** ** [Djvubind/organizer.py], the older module *)

Module Legacy.

(** The files that exist. *)
Definition world : Type := gset string.

(** A computation that may raise and may change the files. *)
Definition M (A : Type) : Type := world -> (exn + A) * world.

Definition ret {A} (a : A) : M A := fun w => (inr a, w).

Definition bind {A B} (m : M A) (k : A -> M B) : M B :=
  fun w =>
    match m w with
    | (inl e, w') => (inl e, w')
    | (inr a, w') => k a w'
    end.

Notation "x <- m ;; k" := (bind m (fun x => k))
  (at level 100, m at next level, right associativity).
Notation "m ;;; k" := (bind m (fun _ => k))
  (at level 100, right associativity).

(** [os.remove(path)] *)
Definition os_remove (p : string) : M unit :=
  fun w =>
    if bool_decide (p ∈ w) then (inr (), w ∖ {[p]})
    else (inl (FileNotFoundError p), w).

(** [shutil.copy2(src, dst)] *)
Definition shutil_copy2 (src dst : string) : M unit :=
  fun w =>
    if bool_decide (src ∈ w) then (inr (), w ∪ {[dst]})
    else (inl (FileNotFoundError src), w).

Module Page.

Record t := mk {
  path : string;
  bitonal : bool;
  dpi : Z;
  text : string
}.

(** [self.path.split('.')[-1]] *)
Definition extension (p : string) : string :=
  List.last (split "." p) EmptyString.

(** The command that converts a JPEG page. *)
Definition convert_cmd (p : string) : string :=
  "convert " +:+ dquote +:+ p +:+ dquote +:+ " "
  +:+ dquote +:+ p +:+ ".tif" +:+ dquote.

Section Ocr.

(** The two collaborators, which are not in these files:
    [Djvubind.utils.execute] and [Djvubind.ocr.get_text]. *)
Variable execute : string -> M unit.
Variable get_text : string -> M string.

(** [Page.ocr], on the path of the page: [Page.__init__] calls it when only
    the path, [bitonal] and [dpi] are set, and it reads the path alone. *)
Definition ocr (p : string) : M string :=
  let ext := extension p in
  if String.eqb ext "jpg" || String.eqb ext "jpeg" then
    execute (convert_cmd p) ;;;
    text <- get_text (p +:+ ".tif") ;;
    os_remove (p +:+ ".tif") ;;;
    ret text
  else if String.eqb ext "tiff" then
    shutil_copy2 p (p +:+ ".tif") ;;;
    text <- get_text (p +:+ ".tif") ;;
    os_remove (p +:+ ".tif") ;;;
    ret text
  else if String.eqb ext "tif" then
    text <- get_text p ;;
    ret text
  else
    ret EmptyString.

End Ocr.

(** Collaborators for the examples: a converter that writes the
    intermediate file of [p], and a recognition that returns or raises
    without touching the files. *)
Definition convert_ok (p : string) : string -> M unit :=
  fun _ w => (inr (), w ∪ {[p +:+ ".tif"]}).

Definition get_text_ok (text : string) : string -> M string :=
  fun _ w => (inr text, w).

Definition get_text_fails : string -> M string :=
  fun _ w => (inl (Failure "tesseract"), w).

End Page.

End Legacy.

(** ** The rest of [djvubind/utils.py] *)

Module Roman.

(** The table [roman_numeral_map]; its integers are positive constants,
    which is what lets the inner loop of [arabic_to_roman] end. *)
Definition roman_numeral_map : list (string * positive) :=
  [("m", 1000); ("cm", 900); ("d", 500); ("cd", 400); ("c", 100);
   ("xc", 90); ("l", 50); ("xl", 40); ("x", 10); ("ix", 9); ("v", 5);
   ("iv", 4); ("i", 1)]%positive.

(** The loop [while number >= integer], on [roman] and [number], run for at
    most [fuel] iterations. *)
Fixpoint while_ge_iter (fuel : nat) (numeral : string) (integer : positive)
    (roman : string) (number : Z) : string * Z :=
  match fuel with
  | O => (roman, number)
  | Datatypes.S fuel' =>
      if Z.pos integer <=? number
      then while_ge_iter fuel' numeral integer (roman +:+ numeral)
             (number - Z.pos integer)
      else (roman, number)
  end.

(** The loop itself.  Every iteration takes at least 1 off [number], so the
    bound [Z.to_nat number] is never what stops it: [while_ge_unfold] below
    is the equation of the loop. *)
Definition while_ge (numeral : string) (integer : positive)
    (roman : string) (number : Z) : string * Z :=
  while_ge_iter (Z.to_nat number) numeral integer roman number.

(** The loop [for numeral, integer in table], on [roman] and [number];
    what is left of [number] at the end is dropped. *)
Fixpoint numerals (table : list (string * positive)) (roman : string)
    (number : Z) : string :=
  match table with
  | [] => roman
  | (numeral, integer) :: table' =>
      let '(roman', number') := while_ge numeral integer roman number in
      numerals table' roman' number'
  end.

(** [arabic_to_roman(number)] *)
Definition arabic_to_roman (number : Z) : string :=
  numerals roman_numeral_map EmptyString number.

(** How a numeral is read (this is not in the source): the worth of a
    letter, and the worth of a numeral, where a letter before a letter of
    greater worth is taken off. *)
Definition letter (c : ascii) : Z :=
  match c with
  | "m" => 1000 | "d" => 500 | "c" => 100 | "l" => 50
  | "x" => 10 | "v" => 5 | "i" => 1 | _ => 0
  end%char.

Fixpoint roman_value (s : string) : Z :=
  match s with
  | EmptyString => 0
  | String c s' =>
      match s' with
      | String d _ =>
          if letter c <? letter d then roman_value s' - letter c
          else roman_value s' + letter c
      | EmptyString => letter c
      end
  end.

(** The length of the run of one character at the head of [s], and of the
    longest run anywhere in [s]. *)
Fixpoint run_at_head (s : string) : nat :=
  match s with
  | EmptyString => O
  | String c s' =>
      match s' with
      | String d _ =>
          if Ascii.eqb c d then Datatypes.S (run_at_head s') else 1%nat
      | EmptyString => 1%nat
      end
  end.

Fixpoint longest_run (s : string) : nat :=
  match s with
  | EmptyString => O
  | String _ s' => Nat.max (run_at_head s) (longest_run s')
  end.

End Roman.

Module Counter.

(** The variables of the generator [counter]: [current] and its arguments.
    [None] for [end_] is the default, no end. *)
Record t := mk {
  current : Z;
  end_ : option Z;
  incriment : Z;
  roman : bool
}.

(** [counter(start, end, incriment, roman)]: the generator before its first
    item, [current = start - incriment]. *)
Definition counter (start : Z) (end_ : option Z) (incriment : Z)
    (roman : bool) : t :=
  mk (start - incriment) end_ incriment roman.

(** What is yielded for [current]. *)
Definition label (roman : bool) (current : Z) : string :=
  if roman then Roman.arabic_to_roman current else PyNum.str_int current.

(** One [next()] on the generator: the item and the generator after it, or
    [None] when the loop condition is false and the generator is done. *)
Definition next (g : t) : option (string * t) :=
  if match end_ g with
     | None => true
     | Some e => current g <? e
     end
  then
    let current := current g + incriment g in
    Some (label (roman g) current, mk current (end_ g) (incriment g) (roman g))
  else None.

(** The item of index [k] (from 0), if the generator gets that far. *)
Fixpoint nth_item (k : nat) (g : t) : option string :=
  match next g with
  | None => None
  | Some (x, g') =>
      match k with
      | O => Some x
      | Datatypes.S k' => nth_item k' g'
      end
  end.

End Counter.

Module IdGenerator.

(** [string.ascii_uppercase + string.digits] *)
Definition default_chars : string := "ABCDEFGHIJKLMNOPQRSTUVWXYZ0123456789".

(** [random.choice(chars)] on the raw number [r] that the random source
    gives for this call: an index below the length, or [IndexError] for an
    empty sequence. *)
Definition choice (r : nat) (chars : string) : exn + ascii :=
  match String.get (r mod String.length chars) chars with
  | Some c => inr c
  | None => inl (IndexError "Cannot choose from an empty sequence")
  end.

(** The generator expression joined: [n] draws, the first one being draw
    number [k] of the random source [rnd]. *)
Fixpoint draws (rnd : nat -> nat) (k n : nat) (chars : string)
  : exn + string :=
  match n with
  | O => inr EmptyString
  | Datatypes.S n' =>
      match choice (rnd k) chars with
      | inl e => inl e
      | inr c =>
          match draws rnd (Datatypes.S k) n' chars with
          | inl e => inl e
          | inr s => inr (String c s)
          end
      end
  end.

(** [id_generator(size, chars)]; [range(size)] is empty for [size <= 0]. *)
Definition id_generator (rnd : nat -> nat) (size : Z) (chars : string)
  : exn + string :=
  draws rnd 0 (Z.to_nat size) chars.

End IdGenerator.

Module Html.

(** [s.replace(old, new)] for a non-empty [old]: the occurrences of [old]
    are found from the left and do not overlap.  [skip] counts the
    characters of an occurrence still to pass over. *)
Fixpoint replace_go (old new : string) (skip : nat) (s : string) : string :=
  match s with
  | EmptyString => EmptyString
  | String c s' =>
      match skip with
      | Datatypes.S k => replace_go old new k s'
      | O =>
          if String.prefix old s
          then new +:+ replace_go old new (Nat.pred (String.length old)) s'
          else String c (replace_go old new O s')
      end
  end.

(** [s.replace(old, new)]; for an empty [old], [new] goes before every
    character and at the end. *)
Definition replace (old new s : string) : string :=
  match old with
  | EmptyString =>
      (fix between (s : string) : string :=
         match s with
         | EmptyString => new
         | String c s' => new +:+ String c (between s')
         end) s
  | _ => replace_go old new O s
  end.

(** The table [html_codes]: the character, then its code. *)
Definition html_codes : list (string * string) :=
  [("&", "&amp;"); ("<", "&lt;"); (">", "&gt;"); (dquote, "&quot;")].

(** [replace_html_codes(text)] *)
Definition replace_html_codes (text : string) : string :=
  fold_left (fun text code => replace (snd code) (fst code) text)
    html_codes text.

End Html.

(** ** The built-in operations on examples *)

Example split_examples :
  split " " "72 PixelsPerInch" = ["72"; "PixelsPerInch"] /\
  split " " EmptyString = [EmptyString] /\
  split " " "a  b " = ["a"; EmptyString; "b"; EmptyString] /\
  split1 "=" "a=b=c" = ["a"; "b=c"] /\
  split1 "=" "abc" = ["abc"].
Proof. repeat split. Qed.

Example strip_examples :
  strip (" a b " +:+ LF) = "a b" /\
  strip (String "028" (String "a" (String "160" EmptyString))) = "a" /\
  rstrip " " = EmptyString /\
  rstrip " out.djvu" = " out.djvu".
Proof. repeat split. Qed.

Example int_examples :
  PyNum.int "300" = inr 300 /\
  PyNum.int " +0012 " = inr 12 /\
  PyNum.int "-7" = inr (-7) /\
  PyNum.int "1_000" = inr 1000 /\
  PyNum.int "1__0" = inl (InvalidLiteral "int" "1__0") /\
  PyNum.int "72.5" = inl (InvalidLiteral "int" "72.5") /\
  PyNum.int (String "028" "1") = inl (InvalidLiteral "int" (String "028" "1")) /\
  PyNum.int EmptyString = inl (InvalidLiteral "int" EmptyString).
Proof. repeat split. Qed.

Example float_examples :
  PyNum.float_of_str "100" = inr (S754_finite false 7036874417766400 (-46)) /\
  PyNum.float_of_str "0.1" = inr (S754_finite false 7205759403792794 (-56)) /\
  PyNum.float_of_str "28.35" = inr (S754_finite false 7979815589747098 (-48)) /\
  PyNum.float_of_str "1e23" = inr (S754_finite false 5960464477539062 24) /\
  PyNum.float_of_str "4.9e-324" = inr (S754_finite false 1 (-1074)) /\
  PyNum.float_of_str "1.7976931348623159e308" = inr (S754_infinity false) /\
  PyNum.float_of_str " -1_0.5E+1 " = inr (S754_finite true 7388718138654720 (-46)) /\
  PyNum.float_of_str "-0" = inr (S754_zero true) /\
  PyNum.float_of_str "-Infinity" = inr (S754_infinity true) /\
  PyNum.float_of_str "NaN" = inr S754_nan /\
  PyNum.float_of_str "1_.5" = inl (InvalidLiteral "float" "1_.5") /\
  PyNum.float_of_str "." = inl (InvalidLiteral "float" ".") /\
  PyNum.float_of_str "1e" = inl (InvalidLiteral "float" "1e") /\
  PyNum.float_of_str "0x10" = inl (InvalidLiteral "float" "0x10").
Proof. vm_compute. repeat split. Qed.

Example round_examples :
  PyNum.round (S754_finite false 5 (-1)) = inr 2 /\
  PyNum.round (S754_finite false 7 (-1)) = inr 4 /\
  PyNum.round (S754_finite true 5 (-1)) = inr (-2) /\
  PyNum.round (S754_finite true 7 (-1)) = inr (-4) /\
  PyNum.round (S754_finite false 1 (-1)) = inr 0 /\
  PyNum.round (S754_finite false 7036874417766400 (-46)) = inr 100 /\
  PyNum.round (S754_zero true) = inr 0.
Proof. repeat split. Qed.

(** ** Facts on strings *)

Lemma app_String c (a b : string) : String c a +:+ b = String c (a +:+ b).
Proof. reflexivity. Qed.

Lemma app_Empty_l (b : string) : EmptyString +:+ b = b.
Proof. reflexivity. Qed.

Lemma app_assoc_s (a b c : string) : (a +:+ b) +:+ c = a +:+ b +:+ c.
Proof.
  induction a as [|x a IH]; [done|]. by rewrite !app_String, IH.
Qed.

Lemma app_Empty_r (a : string) : a +:+ EmptyString = a.
Proof. induction a as [|x a IH]; [done|]. by rewrite app_String, IH. Qed.

Lemma len_Empty : len EmptyString = 0.
Proof. reflexivity. Qed.

Lemma len_String c (a : string) : len (String c a) = 1 + len a.
Proof.
  unfold len.
  change (String.length (String c a)) with (S (String.length a)). lia.
Qed.

Lemma len_app (a b : string) : len (a +:+ b) = len a + len b.
Proof.
  induction a as [|x a IH]; [rewrite app_Empty_l, len_Empty; lia|].
  rewrite app_String, !len_String, IH. lia.
Qed.

Lemma len_nonneg (a : string) : 0 <= len a.
Proof. unfold len. lia. Qed.

Lemma len_rstrip (a : string) : len (rstrip a) <= len a.
Proof.
  induction a as [|x a IH]; [done|]. cbn [rstrip].
  pose proof (len_nonneg a).
  destruct (rstrip a) eqn:E.
  - destruct (isspace x); rewrite ?len_String, ?len_Empty in *; lia.
  - rewrite !len_String in *. lia.
Qed.

Lemma len_quoted (f : string) : len (quoted f) = len f + 3.
Proof.
  unfold quoted. rewrite !len_app. unfold dquote.
  rewrite !len_String, !len_Empty. lia.
Qed.

(** [fits] against a fresh buffer is the bound on the name alone. *)
Lemma fits_fresh (prefix suffix f : string) :
  fits (prefix +:+ " ") f (" " +:+ suffix) = true <-> placeable prefix suffix f.
Proof.
  unfold fits, placeable. rewrite !len_app, Z.ltb_lt.
  change (len " ") with 1. lia.
Qed.

(** A longer buffer fits no more than a shorter one. *)
Lemma fits_mono (b b' f e : string) :
  len b <= len b' -> fits b f e = false -> fits b' f e = false.
Proof. unfold fits. rewrite !Z.ltb_ge. lia. Qed.

#[local] Arguments rstrip : simpl never.
#[local] Arguments lstrip : simpl never.

(** ** Facts on stripping and splitting *)

Lemma rstrip_String c (s : string) :
  rstrip (String c s)
  = match rstrip s with
    | EmptyString => if isspace c then EmptyString else String c EmptyString
    | r => String c r
    end.
Proof. reflexivity. Qed.

Lemma lstrip_String c (s : string) :
  lstrip (String c s) = if isspace c then lstrip s else String c s.
Proof. reflexivity. Qed.

Lemma rstrip_nonspace c (s : string) :
  isspace c = false -> rstrip (String c s) = String c (rstrip s).
Proof. intros Hc. rewrite rstrip_String, Hc. by destruct (rstrip s). Qed.

Lemma lstrip_app_nonspace (a r : string) c :
  isspace c = false -> lstrip (a +:+ String c r) = lstrip a +:+ String c r.
Proof.
  intros Hc. induction a as [|x a IH].
  - by rewrite !app_Empty_l, lstrip_String, Hc.
  - rewrite app_String, !lstrip_String. destruct (isspace x); [done|].
    by rewrite app_String.
Qed.

Lemma rstrip_app_nonspace (a r : string) c :
  isspace c = false -> rstrip (a +:+ String c r) = a +:+ String c (rstrip r).
Proof.
  intros Hc. induction a as [|x a IH].
  - by rewrite !app_Empty_l, rstrip_nonspace.
  - rewrite !app_String, rstrip_String, IH.
    by destruct a.
Qed.

Lemma lstrip_idem (s : string) : lstrip (lstrip s) = lstrip s.
Proof.
  induction s as [|x s IH]; [done|]. rewrite lstrip_String.
  destruct (isspace x) eqn:Hx; [done|]. by rewrite lstrip_String, Hx.
Qed.

Lemma rstrip_idem (s : string) : rstrip (rstrip s) = rstrip s.
Proof.
  induction s as [|x s IH]; [done|]. rewrite rstrip_String.
  destruct (rstrip s) as [|y r] eqn:Hr.
  - destruct (isspace x) eqn:Hx; [done|]. by rewrite rstrip_String, Hx.
  - rewrite rstrip_String, IH. done.
Qed.

Lemma lstrip_rstrip (s : string) : lstrip (rstrip s) = rstrip (lstrip s).
Proof.
  induction s as [|x s IH]; [done|].
  rewrite lstrip_String. destruct (isspace x) eqn:Hx.
  - rewrite <- IH, rstrip_String, Hx.
    destruct (rstrip s) as [|y r]; [done|]. by rewrite lstrip_String, Hx.
  - by rewrite rstrip_nonspace, lstrip_String, Hx.
Qed.

Lemma strip_lstrip (s : string) : strip (lstrip s) = strip s.
Proof. unfold strip. by rewrite lstrip_idem. Qed.

Lemma strip_rstrip (s : string) : strip (rstrip s) = strip s.
Proof. unfold strip. by rewrite lstrip_rstrip, rstrip_idem. Qed.

(** White space at the end of a line does not count. *)
Lemma rstrip_app_space (s : string) c :
  isspace c = true -> rstrip (s +:+ String c EmptyString) = rstrip s.
Proof.
  intros Hc. induction s as [|x s IH].
  - by rewrite app_Empty_l, rstrip_String, Hc.
  - by rewrite app_String, !rstrip_String, IH.
Qed.

Lemma strip_app_space (s : string) c :
  isspace c = true -> strip (s +:+ String c EmptyString) = strip s.
Proof.
  intros Hc. unfold strip.
  by rewrite <- !lstrip_rstrip, rstrip_app_space.
Qed.

Lemma strip_space_app (s : string) c :
  isspace c = true -> strip (String c s) = strip s.
Proof. intros Hc. unfold strip. by rewrite lstrip_String, Hc. Qed.

Lemma contains_app c (a b : string) :
  contains c (a +:+ b) = contains c a || contains c b.
Proof.
  induction a as [|x a IH]; [done|].
  rewrite app_String. cbn [contains]. by destruct (Ascii.eqb x c).
Qed.

Lemma contains_lstrip c (s : string) :
  contains c s = false -> contains c (lstrip s) = false.
Proof.
  induction s as [|x s IH]; [done|]. rewrite lstrip_String.
  destruct (isspace x); [|done]. cbn [contains].
  destruct (Ascii.eqb x c); [done|]. exact IH.
Qed.

Lemma split1_first c (a r : string) :
  contains c a = false -> split1 c (a +:+ String c r) = [a; r].
Proof.
  induction a as [|x a IH].
  - intros _. rewrite app_Empty_l. cbn [split1]. by rewrite Ascii.eqb_refl.
  - rewrite app_String. cbn [contains split1].
    destruct (Ascii.eqb x c); [done|]. intros Ha. by rewrite IH.
Qed.

Lemma prefix_Empty (s : string) : String.prefix EmptyString s = true.
Proof. by destruct s. Qed.

Lemma startswith_char c (s : string) :
  startswith (String c EmptyString) s = true <-> exists r, s = String c r.
Proof.
  unfold startswith. destruct s as [|x r]; simpl.
  - split; [discriminate|]. by intros [? ?].
  - destruct (ascii_dec c x) as [<-|Hne].
    + split; eauto using prefix_Empty.
    + split; [discriminate|]. intros [? [= ? ?]]. congruence.
Qed.

Lemma startswith_app_nonempty c (a r : string) d :
  d <> c ->
  startswith (String c EmptyString) (a +:+ String d r)
  = startswith (String c EmptyString) a.
Proof.
  intros Hd. destruct a as [|x a]; unfold startswith.
  - rewrite app_Empty_l. cbn. destruct (ascii_dec c d); [congruence|done].
  - rewrite app_String. cbn. destruct (ascii_dec c x); [|done].
    by rewrite !prefix_Empty.
Qed.

Lemma startswith_lstrip_space c (k : string) :
  isspace c = false ->
  startswith (String c EmptyString) (lstrip (k +:+ " "))
  = startswith (String c EmptyString) (lstrip k).
Proof.
  intros Hc. induction k as [|x k IH]; [done|].
  rewrite app_String, !lstrip_String. destruct (isspace x); [done|].
  unfold startswith. cbn. destruct (ascii_dec c x); [|done].
  by rewrite !prefix_Empty.
Qed.

(** ** The command batcher *)

Section Batcher.

Variables start end_ : string.

Lemma while_loop_S (fuel : nat) (st : batcher) :
  while_loop (S fuel) start end_ st
  = match loop_body start end_ st with
    | None => Some st
    | Some st' => while_loop fuel start end_ st'
    end.
Proof. reflexivity. Qed.

(** The names placed in a buffer, rendered. *)
Abbreviation placed g := (foldr String.append EmptyString (quoted <$> g)).

Lemma placed_snoc (g : list string) (f : string) :
  placed (g ++ [f]) = placed g +:+ quoted f.
Proof.
  induction g as [|x g IH]; cbn [fmap list_fmap app foldr].
  - by rewrite app_Empty_r.
  - change ((x :: g) ++ [f]) with (x :: (g ++ [f])).
    cbn [fmap list_fmap foldr]. by rewrite IH, app_assoc_s.
Qed.

(** The loop keeps the names in order: what is closed, what is in the
    buffer and what is left to place always make up the same list. *)
Lemma while_loop_groups (fuel : nat) :
  forall (st st' : batcher) (gs : list (list string)) (g : list string),
    cmds st = render start end_ <$> gs ->
    buffer st = start +:+ placed g ->
    while_loop fuel start end_ st = Some st' ->
    exists gs' g',
      cmds st' = render start end_ <$> gs' /\
      buffer st' = start +:+ placed g' /\
      files st' = [] /\ concat gs' ++ g' = concat gs ++ g ++ files st.
Proof.
  induction fuel as [|fuel IH]; intros [b fs cs] st' gs g Hc Hb;
    (destruct fs as [|f rest]; cbn in Hc, Hb |- *;
     [intros [= <-]; exists gs, g; cbn; by rewrite !app_nil_r|]).
  - destruct (fits b f end_); discriminate.
  - destruct (fits b f end_); intros Hrun.
    + apply (IH _ _ gs (g ++ [f])) in Hrun as (gs' & g' & ? & ? & ? & Heq);
        [|done|cbn [buffer]; by rewrite placed_snoc, Hb, app_assoc_s].
      exists gs', g'. repeat split; try done.
      rewrite Heq. cbn [files]. by rewrite <- !app_assoc.
    + apply (IH _ _ (gs ++ [g]) []) in Hrun as (gs' & g' & ? & ? & ? & Heq);
        [|cbn [cmds]; by rewrite fmap_app, Hc, Hb, app_assoc_s
         |cbn; by rewrite app_Empty_r].
      exists gs', g'. repeat split; try done.
      rewrite Heq. cbn [files]. rewrite concat_app. cbn.
      by rewrite !app_nil_r, <- !app_assoc.
Qed.

(** When every name fits a fresh buffer the loop ends within two iterations
    per name. *)
Lemma while_loop_total (fs : list string) :
  Forall (fun f => fits start f end_ = true) fs ->
  forall (fuel : nat) (b : string) (cs : list string),
    (2 * length fs <= fuel)%nat ->
    is_Some (while_loop fuel start end_ (Batcher b fs cs)).
Proof.
  induction 1 as [|f rest Hf _ IH]; intros fuel b cs Hfuel.
  - destruct fuel; cbn; eauto.
  - cbn [length] in Hfuel. destruct fuel as [|fuel]; [lia|].
    rewrite while_loop_S. cbn [loop_body files buffer cmds].
    destruct (fits b f end_).
    + apply IH. lia.
    + destruct fuel as [|fuel]; [lia|].
      rewrite while_loop_S. cbn [loop_body files buffer cmds].
      rewrite Hf. apply IH. lia.
Qed.

Lemma stuck_step (bad : string) (after : list string) (st : batcher) :
  fits start bad end_ = false -> stuck start bad after st ->
  exists st', loop_body start end_ st = Some st' /\ stuck start bad after st'.
Proof.
  intros Hbad [Hlen [l Hl]]. destruct st as [b fs cs]. cbn in *. subst fs.
  unfold loop_body, stuck. cbn [files buffer cmds].
  destruct l as [|x l]; cbn [app].
  - rewrite (fits_mono start b bad end_ Hlen Hbad).
    eexists; split; [done|]. cbn. split; [lia|]. by exists [].
  - destruct (fits b x end_); eexists; (split; [done|]); cbn; split.
    + rewrite len_app.
      pose proof (len_nonneg ((" " +:+ dquote) +:+ x +:+ dquote)). lia.
    + by exists l.
    + lia.
    + by exists (x :: l).
Qed.

Lemma stuck_iterate (bad : string) (after : list string) (n : nat) :
  fits start bad end_ = false ->
  forall st, stuck start bad after st ->
  exists st', iterate n start end_ st = Some st' /\ stuck start bad after st'.
Proof.
  intros Hbad. induction n as [|n IH]; intros st Hst; cbn [iterate].
  - by exists st.
  - destruct (stuck_step bad after st Hbad Hst) as (st1 & -> & Hst1).
    by apply IH.
Qed.

Lemma stuck_while_loop (bad : string) (after : list string) (fuel : nat) :
  fits start bad end_ = false ->
  forall st, stuck start bad after st -> while_loop fuel start end_ st = None.
Proof.
  intros Hbad. induction fuel as [|fuel IH]; intros st Hst; cbn [while_loop];
    destruct (stuck_step bad after st Hbad Hst) as (st1 & -> & Hst1); [done|].
  by apply IH.
Qed.

Lemma while_loop_bounded (fresh_ok : Prop) (fuel : nat) :
  forall st st',
    bounded start end_ fresh_ok st ->
    while_loop fuel start end_ st = Some st' ->
    bounded start end_ fresh_ok st' /\ files st' = [].
Proof.
  induction fuel as [|fuel IH]; intros [b fs cs] st' Hinv;
    (destruct fs as [|f rest]; [cbn; by intros [= <-]|]).
  - cbn. destruct (fits b f end_); discriminate.
  - rewrite while_loop_S. cbn [loop_body files buffer cmds].
    destruct (fits b f end_) eqn:Hfit.
    + apply IH. destruct Hinv as [Hcs _]. split; [done|]. left. cbn.
      unfold fits in Hfit. apply Z.ltb_lt in Hfit.
      rewrite len_app. fold (quoted f). rewrite len_quoted. lia.
    + destruct Hinv as [Hcs [Hroom|[Hb _]]]; cbn in *.
      * apply IH. split; cbn.
        -- apply Forall_app; split; [done|]. constructor; [|done].
           rewrite len_app. pose proof (len_rstrip end_). lia.
        -- right. split; [done|]. discriminate.
      * subst b. intros Hrun. exfalso.
        rewrite (stuck_while_loop f rest fuel Hfit) in Hrun; [done|].
        split; cbn; [lia|]. by exists [].
Qed.

End Batcher.

(** ** Properties of the command batcher *)

Example split_cmd_two :
  split_cmd 5 "djvm -c" ["a.djvu"; "b.djvu"] "book.djvu"
  = Some ["djvm -c " +:+ quoted "a.djvu" +:+ quoted "b.djvu" +:+ " book.djvu"].
Proof. reflexivity. Qed.

(** The initial state of the loop of [split_cmd]. *)
Lemma split_cmd_unfold (fuel : nat) (prefix suffix : string)
    (fs : list string) :
  split_cmd fuel prefix fs suffix
  = match while_loop fuel (prefix +:+ " ") (" " +:+ suffix)
            (Batcher (prefix +:+ " ") fs []) with
    | None => None
    | Some st => Some (cmds st ++ [buffer st +:+ rstrip (" " +:+ suffix)])
    end.
Proof. reflexivity. Qed.

(** With no names the loop does not run and the fresh buffer is closed. *)
Lemma split_cmd_nil (fuel : nat) (prefix suffix : string) :
  split_cmd fuel prefix [] suffix
  = Some [prefix +:+ " " +:+ rstrip (" " +:+ suffix)].
Proof.
  rewrite split_cmd_unfold. destruct fuel; cbn; by rewrite app_assoc_s.
Qed.

(** When every name can be placed in a batch of its own, two iterations
    per name are enough for [split_cmd] to return. *)
Lemma split_cmd_returns (prefix suffix : string) (fs : list string) :
  Forall (placeable prefix suffix) fs ->
  exists fuel cs, split_cmd fuel prefix fs suffix = Some cs.
Proof.
  intros Hall. exists (2 * length fs)%nat.
  rewrite split_cmd_unfold.
  destruct (while_loop_total (prefix +:+ " ") (" " +:+ suffix) fs) with
    (fuel := (2 * length fs)%nat) (b := prefix +:+ " ") (cs := @nil string)
    as [st ->]; [|lia|eauto].
  eapply Forall_impl; [exact Hall|]. intros f. apply fits_fresh.
Qed.

(** C1. The commands returned by [split_cmd] are the renderings of groups of
    whole names (prefix, then each name of the group between double quotes,
    then the suffix), and the groups, put end to end, are exactly the input
    list: nothing is left out, repeated, reordered or cut in two.  A result
    is returned whenever every name can be placed in a batch of its own. *)
Theorem split_cmd_partitions_input (prefix suffix : string) (fs : list string) :
  fs <> [] ->
  (forall fuel cs, split_cmd fuel prefix fs suffix = Some cs ->
     exists groups : list (list string),
       cs = render (prefix +:+ " ") (" " +:+ suffix) <$> groups /\
       concat groups = fs) /\
  (Forall (placeable prefix suffix) fs ->
     exists fuel cs, split_cmd fuel prefix fs suffix = Some cs).
Proof.
  intros _. split.
  - intros fuel cs. rewrite split_cmd_unfold.
    destruct (while_loop _ _ _ _) as [st|] eqn:Hrun; [|done]. intros [= <-].
    apply (while_loop_groups _ _ _ _ _ [] []) in Hrun
      as (gs & g & Hc & Hb & _ & Heq); [| done | cbn; by rewrite app_Empty_r].
    exists (gs ++ [g]). split.
    + rewrite fmap_app, Hc, Hb. cbn. unfold render. by rewrite app_assoc_s.
    + rewrite concat_app. cbn. by rewrite app_nil_r.
  - apply split_cmd_returns.
Qed.

Lemma split_cmd_partitions_input_witness :
  exists groups : list (list string),
    ["djvm -c " +:+ quoted "p1.djvu" +:+ quoted "p2.djvu" +:+ " book.djvu"]
    = render ("djvm -c" +:+ " ") (" " +:+ "book.djvu") <$> groups /\
    concat groups = ["p1.djvu"; "p2.djvu"].
Proof.
  apply (proj1 (split_cmd_partitions_input "djvm -c" "book.djvu"
                  ["p1.djvu"; "p2.djvu"] ltac:(discriminate)) 4%nat).
  reflexivity.
Defined.

(** C2, as the code has it.  Every command returned by [split_cmd] is at
    most 32000 characters long, provided the list of names is not empty or
    the single command of the empty list (the prefix, a space, and the
    suffix after a space with its trailing white space removed) is. *)
Theorem split_cmd_within_ceiling (fuel : nat) (prefix suffix : string)
    (fs cs : list string) :
  (fs = [] -> len (prefix +:+ " " +:+ rstrip (" " +:+ suffix)) <= ceiling) ->
  split_cmd fuel prefix fs suffix = Some cs ->
  Forall (fun c => len c <= ceiling) cs.
Proof.
  intros Hfresh. rewrite split_cmd_unfold.
  destruct (while_loop _ _ _ _) as [st|] eqn:Hrun; [|done]. intros [= <-].
  apply (while_loop_bounded _ _
           (len (prefix +:+ " " +:+ rstrip (" " +:+ suffix)) <= ceiling))
    in Hrun as [[Hcs Hbuf] Hnil].
  - apply Forall_app; split; [done|]. constructor; [|done].
    destruct Hbuf as [Hroom|[-> Hok]].
    + rewrite len_app. pose proof (len_rstrip (" " +:+ suffix)). lia.
    + rewrite app_assoc_s. auto.
  - split; cbn; [done|]. right. split; [done|]. exact Hfresh.
Qed.

Lemma split_cmd_within_ceiling_witness :
  Forall (fun c => len c <= ceiling)
    ["djvm -c " +:+ quoted "p1.djvu" +:+ quoted "p2.djvu" +:+ " book.djvu"].
Proof.
  apply (split_cmd_within_ceiling 4 "djvm -c" "book.djvu"
           ["p1.djvu"; "p2.djvu"]).
  - discriminate.
  - reflexivity.
Defined.

(** C2 as stated fails: with no names and a prefix of 32000 characters the
    one command returned is 32001 characters long. *)
Lemma split_cmd_over_ceiling :
  split_cmd 0 (repeated "a" 32000) [] EmptyString
  = Some [repeated "a" 32000 +:+ " "] /\
  len (repeated "a" 32000 +:+ " ") = 32001 /\
  ~ Forall (fun c => len c <= 32000) [repeated "a" 32000 +:+ " "].
Proof.
  assert (len (repeated "a" 32000 +:+ " ") = 32001) as Hlen.
  { rewrite len_app.
    assert (len (repeated "a" 32000) = 32000) as ->
      by (vm_compute; reflexivity).
    reflexivity. }
  split; [exact (split_cmd_nil 0 (repeated "a" 32000) EmptyString)|].
  split; [exact Hlen|].
  intros H. apply Forall_cons_1 in H as [H _]. rewrite Hlen in H. lia.
Qed.

(** C3. [split_cmd] returns when every name can be placed in a batch of its
    own.  When some name cannot, the loop never leaves: after any number of
    iterations that name is still in the list to place, and no bound on the
    iterations yields a result. *)
Theorem split_cmd_termination (prefix suffix : string) (fs : list string) :
  (Forall (placeable prefix suffix) fs ->
     exists fuel cs, split_cmd fuel prefix fs suffix = Some cs) /\
  (forall before bad after,
     fs = before ++ bad :: after -> ~ placeable prefix suffix bad ->
     (forall fuel, split_cmd fuel prefix fs suffix = None) /\
     (forall n, exists st,
        iterate n (prefix +:+ " ") (" " +:+ suffix)
          (Batcher (prefix +:+ " ") fs []) = Some st /\
        exists l, files st = l ++ bad :: after)).
Proof.
  split.
  - apply split_cmd_returns.
  - intros before bad after -> Hbad.
    assert (fits (prefix +:+ " ") bad (" " +:+ suffix) = false) as Hfit.
    { destruct (fits _ _ _) eqn:Hf; [|done]. by apply fits_fresh in Hf. }
    assert (stuck (prefix +:+ " ") bad after
              (Batcher (prefix +:+ " ") (before ++ bad :: after) [])) as Hst.
    { split; cbn; [lia|]. by exists before. }
    split.
    + intros fuel. rewrite split_cmd_unfold.
      by rewrite (stuck_while_loop _ _ bad after fuel Hfit _ Hst).
    + intros n.
      destruct (stuck_iterate _ _ bad after n Hfit _ Hst)
        as (st & Hit & _ & Hl).
      eauto.
Qed.

Lemma split_cmd_termination_witness :
  (exists fuel cs,
     split_cmd fuel "djvm -c" ["p1.djvu"; "p2.djvu"] "book.djvu" = Some cs) /\
  (forall fuel,
     split_cmd fuel "djvm -c" ["p1.djvu"; repeated "x" 32000; "p3.djvu"]
       "book.djvu"
     = None).
Proof.
  split.
  - apply (proj1 (split_cmd_termination "djvm -c" "book.djvu"
                    ["p1.djvu"; "p2.djvu"])).
    repeat constructor; vm_compute; reflexivity.
  - apply (proj2 (split_cmd_termination "djvm -c" "book.djvu"
                    ["p1.djvu"; repeated "x" 32000; "p3.djvu"])
             ["p1.djvu"] (repeated "x" 32000) ["p3.djvu"]).
    + reflexivity.
    + vm_compute. intros H. discriminate H.
Defined.

(** A suffix that is not empty and does not end in white space keeps the
    space put before it. *)
Lemma rstrip_space_suffix (suffix : string) :
  suffix <> EmptyString -> rstrip suffix = suffix ->
  rstrip (" " +:+ suffix) = " " +:+ suffix.
Proof.
  intros Hne Hs. change (" " +:+ suffix) with (String " " suffix).
  rewrite rstrip_String, Hs. by destruct suffix.
Qed.

(** C7, as the code has it.  With no names [split_cmd] returns exactly one
    command: the prefix, a space, and the suffix after a space with its
    trailing white space removed.  That is the prefix and a space when the
    suffix is empty, and the prefix, two spaces and the suffix when the
    suffix is not empty and does not end in white space. *)
Theorem split_cmd_empty (fuel : nat) (prefix suffix : string) :
  split_cmd fuel prefix [] suffix
  = Some [prefix +:+ " " +:+ rstrip (" " +:+ suffix)] /\
  (suffix = EmptyString ->
   split_cmd fuel prefix [] suffix = Some [prefix +:+ " "]) /\
  (suffix <> EmptyString -> rstrip suffix = suffix ->
   split_cmd fuel prefix [] suffix = Some [prefix +:+ "  " +:+ suffix]).
Proof.
  rewrite split_cmd_nil. split; [done|]. split.
  - intros ->. reflexivity.
  - intros Hne Hs. by rewrite rstrip_space_suffix.
Qed.

Lemma split_cmd_empty_witness :
  split_cmd 0 "djvm -c" [] EmptyString = Some ["djvm -c "] /\
  split_cmd 0 "djvm -c" [] "book.djvu" = Some ["djvm -c  book.djvu"].
Proof.
  split.
  - apply (proj1 (proj2 (split_cmd_empty 0 "djvm -c" EmptyString))).
    reflexivity.
  - apply (proj2 (proj2 (split_cmd_empty 0 "djvm -c" "book.djvu")));
      [discriminate | reflexivity].
Defined.

(** C7 as stated fails: the one command is not the prefix followed at once
    by the suffix. *)
Lemma split_cmd_empty_not_concat :
  split_cmd 0 "djvm -c" [] "book.djvu" = Some ["djvm -c  book.djvu"] /\
  split_cmd 0 "djvm -c" [] "book.djvu" <> Some ["djvm -c" +:+ "book.djvu"].
Proof. split; [reflexivity|discriminate]. Qed.

(** ** Properties of the book and page models *)

Import Organizer.








(** The literal [2.54] is read as [float_2_54]. *)
Lemma float_2_54_literal : PyNum.float_of_str "2.54" = inr PyNum.float_2_54.
Proof. vm_compute. reflexivity. Qed.




(** ** Properties of the older page model *)

Section LegacyOcr.

Import Legacy.

Variable execute : string -> M unit.
Variable get_text : string -> M string.

(** After [os.remove] the file is gone, whether the call raised or not. *)
Lemma os_remove_absent (f : string) (w w' : world) (r : exn + unit) :
  os_remove f w = (r, w') -> f ∉ w'.
Proof.
  unfold os_remove. destruct (bool_decide (f ∈ w)) eqn:Hin; intros Heq;
    injection Heq as Hr Hw; subst w'.
  - apply not_elem_of_difference. right. by apply elem_of_singleton.
  - by apply bool_decide_eq_false in Hin.
Qed.

(** The two paths with an intermediate end alike once the intermediate is
    made: recognition, then removal if recognition returned. *)
Lemma recognize_then_remove (f : string) (w : world) :
  (text <- get_text f ;; os_remove f ;;; ret text) w
  = match get_text f w with
    | (inl e, w2) => (inl e, w2)
    | (inr text, w2) =>
        match os_remove f w2 with
        | (inl e, w3) => (inl e, w3)
        | (inr _, w3) => (inr text, w3)
        end
    end.
Proof.
  unfold bind, ret. destruct (get_text f w) as [[e|text] w2]; [done|].
  by destruct (os_remove f w2) as [[e|[]] w3].
Qed.

End LegacyOcr.

(** C6, as the code has it.  For a page whose extension is [jpg], [jpeg] or
    [tiff], when [Page.ocr] returns the text the intermediate file (the path
    followed by [.tif]) is no longer there.  When the recognition raises,
    [Page.ocr] raises the same exception at once and leaves the files as the
    recognition left them: [os.remove] is not called. *)
Theorem ocr_intermediate_removed_on_success
    (execute : string -> Legacy.M unit) (get_text : string -> Legacy.M string)
    (p : string) (w : Legacy.world) :
  Legacy.Page.extension p = "jpg" \/ Legacy.Page.extension p = "jpeg" \/
  Legacy.Page.extension p = "tiff" ->
  (forall text w',
     Legacy.Page.ocr execute get_text p w = (inr text, w') ->
     p +:+ ".tif" ∉ w') /\
  (forall w1 e w2,
     (if String.eqb (Legacy.Page.extension p) "tiff"
      then Legacy.shutil_copy2 p (p +:+ ".tif") w
      else execute (Legacy.Page.convert_cmd p) w) = (inr (), w1) ->
     get_text (p +:+ ".tif") w1 = (inl e, w2) ->
     Legacy.Page.ocr execute get_text p w = (inl e, w2)).
Proof.
  intros Hext.
  assert (Legacy.Page.ocr execute get_text p w
          = match (if String.eqb (Legacy.Page.extension p) "tiff"
                   then Legacy.shutil_copy2 p (p +:+ ".tif") w
                   else execute (Legacy.Page.convert_cmd p) w) with
            | (inl e, w1) => (inl e, w1)
            | (inr _, w1) =>
                match get_text (p +:+ ".tif") w1 with
                | (inl e, w2) => (inl e, w2)
                | (inr text, w2) =>
                    match Legacy.os_remove (p +:+ ".tif") w2 with
                    | (inl e, w3) => (inl e, w3)
                    | (inr _, w3) => (inr text, w3)
                    end
                end
            end) as Hocr.
  { unfold Legacy.Page.ocr.
    destruct Hext as [-> | [-> | ->]]; cbn [String.eqb Ascii.eqb Bool.eqb orb];
      unfold Legacy.bind at 1;
      match goal with |- context [match ?m w with _ => _ end] =>
        destruct (m w) as [[e|[]] w1] end;
      try done; apply recognize_then_remove. }
  rewrite Hocr. split.
  - intros text w'.
    destruct (if String.eqb _ _ then _ else _) as [[e|[]] w1]; [done|].
    destruct (get_text _ w1) as [[e|t] w2]; [done|].
    destruct (Legacy.os_remove _ w2) as [[e|[]] w3] eqn:Hrm; [done|].
    intros [= _ <-]. by apply os_remove_absent in Hrm.
  - intros w1 e w2 -> ->. reflexivity.
Qed.

Lemma ocr_intermediate_removed_on_success_witness :
  ("/scan/p1.jpg.tif"
   ∉ snd (Legacy.Page.ocr (Legacy.Page.convert_ok "/scan/p1.jpg")
            (Legacy.Page.get_text_ok "abc") "/scan/p1.jpg" {["/scan/p1.jpg"]})) /\
  Legacy.Page.ocr (Legacy.Page.convert_ok "/scan/p1.jpg")
    Legacy.Page.get_text_fails "/scan/p1.jpg" {["/scan/p1.jpg"]}
  = (inl (Failure "tesseract"), {["/scan/p1.jpg"]} ∪ {["/scan/p1.jpg.tif"]}).
Proof.
  split.
  - apply (proj1 (ocr_intermediate_removed_on_success
                    (Legacy.Page.convert_ok "/scan/p1.jpg")
                    (Legacy.Page.get_text_ok "abc")
                    "/scan/p1.jpg" {["/scan/p1.jpg"]} (or_introl eq_refl))
             "abc").
    vm_compute. reflexivity.
  - apply (proj2 (ocr_intermediate_removed_on_success
                    (Legacy.Page.convert_ok "/scan/p1.jpg")
                    Legacy.Page.get_text_fails
                    "/scan/p1.jpg" {["/scan/p1.jpg"]} (or_introl eq_refl))
             ({["/scan/p1.jpg"]} ∪ {["/scan/p1.jpg.tif"]})); reflexivity.
Defined.

(** C6 as stated fails: when the recognition of a JPEG page raises, the
    exception leaves [Page.ocr] and the intermediate file is still there. *)
Lemma ocr_intermediate_left_on_failure :
  fst (Legacy.Page.ocr (Legacy.Page.convert_ok "/scan/p1.jpg")
         Legacy.Page.get_text_fails "/scan/p1.jpg" {["/scan/p1.jpg"]})
  = inl (Failure "tesseract") /\
  "/scan/p1.jpg.tif"
  ∈ snd (Legacy.Page.ocr (Legacy.Page.convert_ok "/scan/p1.jpg")
           Legacy.Page.get_text_fails "/scan/p1.jpg" {["/scan/p1.jpg"]}).
Proof.
  split; [reflexivity|].
  change (snd _)
    with ({["/scan/p1.jpg"]} ∪ {["/scan/p1.jpg.tif"]} : gset string).
  set_solver.
Qed.

(** ** Properties of the config reader *)

(** A line [key=value] whose key has no [=]: a comment when the key starts
    with [#] after its leading white space, a pair otherwise. *)
Lemma parse_config_line_pair (options : gmap string string)
    (key value : string) :
  contains "=" key = false ->
  parse_config_line options (key +:+ String "=" value)
  = if startswith "#" (lstrip key) then options
    else <[strip key := strip value]> options.
Proof.
  intros Hkey.
  assert (strip (key +:+ String "=" value)
          = lstrip key +:+ String "=" (rstrip value)) as Hs.
  { unfold strip. by rewrite lstrip_app_nonspace, rstrip_app_nonspace. }
  unfold parse_config_line. rewrite Hs.
  rewrite startswith_app_nonempty by done.
  destruct (startswith "#" (lstrip key)); [done|].
  rewrite contains_app. cbn [contains]. rewrite Ascii.eqb_refl, orb_true_r.
  rewrite split1_first by (by apply contains_lstrip).
  by rewrite strip_lstrip, strip_rstrip.
Qed.

(** A line that starts with [#], after white space or not, adds nothing. *)
Lemma parse_config_line_comment (options : gmap string string) (line : string) :
  startswith "#" (lstrip line) = true ->
  parse_config_line options line = options.
Proof.
  intros Hc.
  assert (startswith "#" (strip line) = true) as Hs.
  { apply startswith_char in Hc as [r Hr]. apply startswith_char.
    unfold strip. rewrite Hr, rstrip_nonspace by done. eauto. }
  unfold parse_config_line. by rewrite Hs.
Qed.

(** The line feed that ends a line of the file does not count. *)
Lemma parse_config_line_LF (options : gmap string string) (line : string) :
  parse_config_line options (line +:+ LF) = parse_config_line options line.
Proof.
  unfold parse_config_line, LF. by rewrite strip_app_space.
Qed.

(** C10. For a key and a value without [=], the lines [key = value] and
    [key=value] are read alike: both give the pair of the stripped key and
    the stripped value (or nothing, when the key starts with [#]).  A line
    that starts with [#] gives no pair.  A [#] after the value is not a
    comment: it stays in the value, with what follows it.  The line feed at
    the end of a line changes none of this. *)
Theorem parse_config_spacing (options : gmap string string)
    (key value : string) :
  contains "=" key = false ->
  contains "=" value = false ->
  parse_config_line options (key +:+ " = " +:+ value)
  = parse_config_line options (key +:+ "=" +:+ value) /\
  (startswith "#" (lstrip key) = false ->
   parse_config_line options (key +:+ "=" +:+ value)
   = <[strip key := strip value]> options) /\
  (forall line,
     startswith "#" (lstrip line) = true ->
     parse_config_line options line = options) /\
  (forall comment,
     startswith "#" (lstrip key) = false ->
     parse_config_line options (key +:+ "=" +:+ value +:+ " #" +:+ comment)
     = <[strip key := lstrip (value +:+ " ") +:+ "#" +:+ rstrip comment]> options) /\
  (forall line,
     parse_config_line options (line +:+ LF) = parse_config_line options line).
Proof.
  intros Hkey Hvalue. split; [|split; [|split; [|split]]];
    [| | | |apply parse_config_line_LF].
  - change (key +:+ "=" +:+ value) with (key +:+ String "=" value).
    replace (key +:+ " = " +:+ value)
      with ((key +:+ " ") +:+ String "=" (String " " value))
      by (by rewrite app_assoc_s).
    rewrite !parse_config_line_pair; [|done|].
    + rewrite startswith_lstrip_space by done.
      rewrite strip_app_space, strip_space_app by done. reflexivity.
    + rewrite contains_app, Hkey. reflexivity.
  - intros Hc. change (key +:+ "=" +:+ value) with (key +:+ String "=" value).
    by rewrite parse_config_line_pair, Hc.
  - intros line. apply parse_config_line_comment.
  - intros comment Hc.
    change (key +:+ "=" +:+ value +:+ " #" +:+ comment)
      with (key +:+ String "=" (value +:+ " #" +:+ comment)).
    rewrite parse_config_line_pair, Hc by done. f_equal.
    replace (value +:+ " #" +:+ comment)
      with ((value +:+ " ") +:+ String "#" comment)
      by (by rewrite app_assoc_s).
    unfold strip. by rewrite lstrip_app_nonspace, rstrip_app_nonspace.
Qed.

Lemma parse_config_spacing_witness :
  parse_config_line ∅ ("ocr_engine" +:+ " = " +:+ "tesseract")
  = parse_config_line ∅ ("ocr_engine" +:+ "=" +:+ "tesseract") /\
  parse_config_line ∅ ("ocr_engine" +:+ "=" +:+ "tesseract")
  = <[strip "ocr_engine" := strip "tesseract"]> ∅.
Proof.
  pose proof (parse_config_spacing ∅ "ocr_engine" "tesseract" eq_refl eq_refl)
    as (H1 & H2 & _).
  split; [exact H1|]. apply H2. reflexivity.
Defined.

(** A whole file, with both spacings, a comment and a [#] after a value. *)
Example parse_config_file :
  parse_config
    {[ "djvubind.conf" :=
         "ocr_engine = tesseract" +:+ LF +:+ "cores=2" +:+ LF
         +:+ "  # bitonal = minidjvu" +:+ LF
         +:+ "color_encoder = csepdjvu # slow" +:+ LF ]}
    "djvubind.conf"
  = inr (<["color_encoder" := "csepdjvu # slow"]>
           (<["cores" := "2"]> (<["ocr_engine" := "tesseract"]> ∅))).
Proof. vm_compute. reflexivity. Qed.

(** ** Properties of the report *)

Lemma app_LF (a r : string) : (a +:+ LF) +:+ r = a +:+ String "010" r.
Proof. by rewrite app_assoc_s. Qed.

Lemma lines_of_line (a r : string) :
  contains "010" a = false ->
  lines_of (a +:+ String "010" r) = (a +:+ LF) :: lines_of r.
Proof.
  induction a as [|x a IH].
  - intros _. rewrite !app_Empty_l. reflexivity.
  - rewrite !app_String. cbn [contains lines_of].
    destruct (Ascii.eqb x "010"); [done|]. intros Ha. by rewrite IH.
Qed.

Lemma contains_pretty_N_go c (x : N) :
  (forall d, pretty_N_char d <> c) ->
  forall s, contains c (pretty_N_go x s) = contains c s.
Proof.
  intros Hc. induction (N.lt_wf_0 x) as [x _ IH]. intros s.
  destruct (decide (x = 0%N)) as [->|Hx]; [by rewrite pretty_N_go_0|].
  rewrite pretty_N_go_step by lia. rewrite IH by (apply N.div_lt; lia).
  cbn [contains].
  destruct (Ascii.eqb_spec (pretty_N_char (x `mod` 10)) c); [|done].
  by destruct (Hc (x `mod` 10)%N).
Qed.

Lemma digit_not_LF (d : N) : pretty_N_char d <> "010"%char.
Proof. unfold pretty_N_char. repeat case_match; discriminate. Qed.

Lemma contains_LF_str_int (z : Z) : contains "010" (PyNum.str_int z) = false.
Proof.
  assert (forall n : N, contains "010" (pretty n) = false) as HN.
  { intros n. unfold pretty, pretty_N. case_decide; [done|].
    rewrite contains_pretty_N_go by apply digit_not_LF. done. }
  unfold PyNum.str_int, pretty, pretty_Z.
  destruct z as [|p|p]; [done|apply HN|].
  rewrite contains_app. cbn [contains Ascii.eqb Bool.eqb orb].
  apply HN.
Qed.

(** A row has no line feed unless the path or the title has one. *)
Lemma contains_LF_entry (page : Page.t) :
  contains "010" (Page.path page) = false ->
  contains "010" (Book.str_title (Page.title page)) = false ->
  contains "010" (Book.entry page) = false.
Proof.
  intros Hpath Htitle. unfold Book.entry. cbn [join].
  rewrite !contains_app, Hpath, Htitle, !contains_LF_str_int.
  by destruct (Page.bitonal page) as [[]|].
Qed.

Lemma save_report_fold (ps : list Page.t) :
  forall written : string,
    fold_left Book.save_report_body ps written
    = written +:+ foldr String.append EmptyString
                    ((fun page => Book.entry page +:+ LF) <$> ps).
Proof.
  induction ps as [|page ps IH]; intros written.
  - cbn. by rewrite app_Empty_r.
  - cbn [fold_left fmap list_fmap foldr]. rewrite IH.
    unfold Book.save_report_body. by rewrite !app_assoc_s.
Qed.

Lemma lines_of_rows (ps : list Page.t) :
  Forall (fun page => contains "010" (Book.entry page) = false) ps ->
  lines_of (foldr String.append EmptyString
              ((fun page => Book.entry page +:+ LF) <$> ps))
  = (fun page => Book.entry page +:+ LF) <$> ps.
Proof.
  induction 1 as [|page ps Hpage _ IH]; [done|].
  cbn [fmap list_fmap foldr].
  rewrite app_LF, lines_of_line by done. by rewrite IH.
Qed.

(** C9. [save_report] writes [book.csv] as the line
    [Path, Bitonal, DPI, Title, OCR] followed by one row per page, in the
    order of the pages; a row is the path, the bitonal status, the dpi, the
    title and the length of the text, joined by a comma and a space; and
    every line ends in a line feed.  The first line of the file is the
    header, and when no path and no title holds a line feed the lines of the
    file are exactly the header and the rows. *)
Theorem save_report_layout (b : Book.t) (fs : gmap string string) :
  let row page :=
    Page.path page +:+ ", " +:+ Book.str_bitonal (Page.bitonal page) +:+ ", "
    +:+ PyNum.str_int (Page.dpi page) +:+ ", "
    +:+ Book.str_title (Page.title page) +:+ ", "
    +:+ PyNum.str_int (len (Page.text page)) in
  exists written : string,
    Book.save_report b fs !! "book.csv" = Some written /\
    written = ("Path, Bitonal, DPI, Title, OCR" +:+ LF)
              +:+ foldr String.append EmptyString
                    ((fun page => row page +:+ LF) <$> Book.pages b) /\
    head (lines_of written) = Some ("Path, Bitonal, DPI, Title, OCR" +:+ LF) /\
    (Forall (fun page =>
               contains "010" (Page.path page) = false /\
               contains "010" (Book.str_title (Page.title page)) = false)
            (Book.pages b) ->
     lines_of written
     = ("Path, Bitonal, DPI, Title, OCR" +:+ LF)
       :: ((fun page => row page +:+ LF) <$> Book.pages b)).
Proof.
  intros row. eexists. split; [apply lookup_insert_eq|].
  change row with Book.entry.
  rewrite save_report_fold, app_Empty_l. split; [done|].
  rewrite app_LF, lines_of_line by done. split; [done|].
  intros Hclean. f_equal.
  apply lines_of_rows. eapply Forall_impl; [exact Hclean|].
  intros page [? ?]. by apply contains_LF_entry.
Qed.

Lemma save_report_layout_witness :
  let b := Book.mk [Page.mk "/scan/p1.tif" (Some true) 600 "Title page" (Some "i");
                    Page.mk "/scan/p2.jpg" (Some false) 300 EmptyString None]
             ∅ None in
  exists written : string,
    Book.save_report b ∅ !! "book.csv" = Some written /\
    lines_of written
    = ["Path, Bitonal, DPI, Title, OCR" +:+ LF;
       "/scan/p1.tif, True, 600, i, 10" +:+ LF;
       "/scan/p2.jpg, False, 300, None, 0" +:+ LF].
Proof.
  intros b.
  destruct (save_report_layout b ∅) as (written & Hfile & _ & _ & Hlines).
  exists written. split; [exact Hfile|].
  rewrite Hlines; [reflexivity|].
  repeat constructor.
Defined.

(** ** Roman numerals *)

Import Roman.

(** Enough fuel is as good as more. *)
Lemma while_ge_iter_fuel (fuel1 : nat) :
  forall fuel2 numeral integer roman number,
    (Z.to_nat number <= fuel1)%nat -> (Z.to_nat number <= fuel2)%nat ->
    while_ge_iter fuel1 numeral integer roman number
    = while_ge_iter fuel2 numeral integer roman number.
Proof.
  induction fuel1 as [|fuel1 IH];
    intros [|fuel2] numeral integer roman number H1 H2;
    cbn [while_ge_iter]; try done;
    destruct (Z.leb_spec (Z.pos integer) number); try done; try lia.
  apply IH; lia.
Qed.

Lemma while_ge_iter_enough (fuel : nat) numeral integer roman number :
  (Z.to_nat number <= fuel)%nat ->
  while_ge_iter fuel numeral integer roman number
  = while_ge numeral integer roman number.
Proof. intros H. apply while_ge_iter_fuel; [done|lia]. Qed.

(** The equation of the loop [while number >= integer]. *)
Lemma while_ge_unfold numeral integer roman number :
  while_ge numeral integer roman number
  = if Z.pos integer <=? number
    then while_ge numeral integer (roman +:+ numeral) (number - Z.pos integer)
    else (roman, number).
Proof.
  unfold while_ge at 1. destruct (Z.to_nat number) as [|n] eqn:Hn.
  - cbn [while_ge_iter]. destruct (Z.leb_spec (Z.pos integer) number); [lia|done].
  - cbn [while_ge_iter]. destruct (Z.leb_spec (Z.pos integer) number); [|done].
    apply while_ge_iter_enough. lia.
Qed.

(** What the loop adds does not depend on what [roman] already holds. *)
Lemma while_ge_prefix numeral integer (k : nat) :
  forall roman number,
    (Z.to_nat number <= k)%nat ->
    while_ge numeral integer roman number
    = (roman +:+ fst (while_ge numeral integer EmptyString number),
       snd (while_ge numeral integer EmptyString number)).
Proof.
  induction k as [|k IH]; intros roman number Hk;
    rewrite (while_ge_unfold _ _ roman), (while_ge_unfold _ _ EmptyString);
    destruct (Z.leb_spec (Z.pos integer) number);
    try lia; try (cbn; by rewrite app_Empty_r).
  rewrite (IH (roman +:+ numeral)), (IH (EmptyString +:+ numeral)) by lia.
  cbn [fst snd]. by rewrite app_Empty_l, app_assoc_s.
Qed.

Lemma numerals_cons numeral integer table roman number :
  numerals ((numeral, integer) :: table) roman number
  = numerals table (fst (while_ge numeral integer roman number))
      (snd (while_ge numeral integer roman number)).
Proof.
  cbn [numerals]. by destruct (while_ge numeral integer roman number).
Qed.

(** What the loops add does not depend on what [roman] already holds. *)
Lemma numerals_prefix (table : list (string * positive)) :
  forall roman number,
    numerals table roman number
    = roman +:+ numerals table EmptyString number.
Proof.
  induction table as [|[numeral integer] table IH]; intros roman number.
  - cbn [numerals]. by rewrite app_Empty_r.
  - rewrite !numerals_cons.
    rewrite (while_ge_prefix numeral integer (Z.to_nat number) roman) by lia.
    destruct (while_ge numeral integer EmptyString number) as [r n].
    cbn [fst snd]. rewrite (IH (roman +:+ r)), (IH r).
    by rewrite app_assoc_s.
Qed.

(** A number that is not positive passes every loop untouched. *)
Lemma numerals_nonpositive (table : list (string * positive)) :
  forall roman number,
    number <= 0 -> numerals table roman number = roman.
Proof.
  induction table as [|[numeral integer] table IH]; intros roman number Hn;
    [done|].
  rewrite numerals_cons, while_ge_unfold.
  destruct (Z.leb_spec (Z.pos integer) number); [lia|]. by apply IH.
Qed.

(** The first loop is the one of [m]. *)
Lemma arabic_to_roman_head (number : Z) :
  arabic_to_roman number
  = numerals (tl roman_numeral_map)
      (fst (while_ge "m" 1000 EmptyString number))
      (snd (while_ge "m" 1000 EmptyString number)).
Proof.
  exact (numerals_cons "m" 1000 (tl roman_numeral_map) EmptyString number).
Qed.

(** A thousand more is one more [m] in front. *)
Lemma arabic_to_roman_thousand (number : Z) :
  1000 <= number ->
  arabic_to_roman number = "m" +:+ arabic_to_roman (number - 1000).
Proof.
  intros Hn. rewrite !arabic_to_roman_head.
  rewrite (while_ge_unfold "m" 1000 EmptyString number).
  destruct (Z.leb_spec 1000 number); [|lia]. rewrite app_Empty_l.
  rewrite (while_ge_prefix "m" 1000 (Z.to_nat (number - 1000)) "m") by lia.
  destruct (while_ge "m" 1000 EmptyString (number - 1000)) as [r n].
  cbn [fst snd].
  rewrite numerals_prefix, (numerals_prefix _ r).
  by rewrite app_assoc_s.
Qed.

Lemma letter_le (c : ascii) : letter c <= 1000.
Proof.
  destruct c as [[] [] [] [] [] [] [] []]; vm_compute; discriminate.
Qed.

(** An [m] in front is always added, never taken off. *)
Lemma roman_value_m (s : string) :
  roman_value (String "m" s) = 1000 + roman_value s.
Proof.
  cbn [roman_value]. destruct s as [|d s]; [reflexivity|].
  change (letter "m") with 1000.
  pose proof (letter_le d). destruct (Z.ltb_spec 1000 (letter d)); lia.
Qed.

(** The numerals of the numbers below 4000, all computed. *)
Lemma small_numerals (n : Z) :
  0 <= n < 4000 ->
  roman_value (arabic_to_roman n) = n /\
  (longest_run (arabic_to_roman n) <= 3)%nat.
Proof.
  intros Hn.
  assert (forallb (fun k : nat =>
            let r := arabic_to_roman (Z.of_nat k) in
            (roman_value r =? Z.of_nat k) && (longest_run r <=? 3)%nat)
            (seq 0 (Z.to_nat 4000)) = true) as Hall
    by (vm_compute; reflexivity).
  rewrite forallb_forall in Hall.
  specialize (Hall (Z.to_nat n)). rewrite Z2Nat.id in Hall by lia.
  cbv zeta in Hall.
  assert (In (Z.to_nat n) (seq 0 (Z.to_nat 4000))) as Hin
    by (apply in_seq; lia).
  apply Hall, andb_true_iff in Hin as [Hv Hr].
  split; [by apply Z.eqb_eq|by apply Nat.leb_le].
Qed.

Lemma roman_value_arabic (k : nat) :
  forall n, 0 <= n < 1000 * (Z.of_nat k + 1) ->
    roman_value (arabic_to_roman n) = n.
Proof.
  induction k as [|k IH]; intros n Hn.
  - apply small_numerals. lia.
  - destruct (Z.lt_ge_cases n 1000) as [Hlt|Hge].
    + apply small_numerals. lia.
    + rewrite arabic_to_roman_thousand by done.
      change ("m" +:+ arabic_to_roman (n - 1000))
        with (String "m" (arabic_to_roman (n - 1000))).
      rewrite roman_value_m, IH by lia. lia.
Qed.

(** X1. Read back, the numeral of a number that is not negative gives the
    number; so two such numbers with the same numeral are equal. *)
Theorem arabic_to_roman_reads_back (n m : Z) :
  0 <= n -> 0 <= m ->
  roman_value (arabic_to_roman n) = n /\
  (arabic_to_roman n = arabic_to_roman m -> n = m).
Proof.
  intros Hn Hm.
  assert (forall x, 0 <= x -> roman_value (arabic_to_roman x) = x) as Hback.
  { intros x Hx. apply (roman_value_arabic (Z.to_nat x)). lia. }
  split; [by apply Hback|].
  intros Heq. rewrite <- (Hback n), <- (Hback m), Heq by done. reflexivity.
Qed.

Lemma arabic_to_roman_reads_back_witness :
  roman_value (arabic_to_roman 1994) = 1994 /\
  (arabic_to_roman 1994 = arabic_to_roman 1994 -> 1994 = 1994).
Proof. apply (arabic_to_roman_reads_back 1994 1994); lia. Defined.

(** X2. The numeral is empty exactly for the numbers that are not
    positive: zero and the negative numbers have no numeral. *)
Theorem arabic_to_roman_empty (n : Z) :
  arabic_to_roman n = EmptyString <-> n <= 0.
Proof.
  split.
  - intros Hempty. destruct (Z.le_gt_cases n 0) as [|Hpos]; [done|].
    pose proof (roman_value_arabic (Z.to_nat n) n ltac:(lia)) as Hback.
    rewrite Hempty in Hback. cbn in Hback. lia.
  - intros Hn. by apply numerals_nonpositive.
Qed.

(** X3. Each further thousand puts one more [m] in front of the numeral:
    there is no other notation for the thousands. *)
Theorem arabic_to_roman_thousands (k : nat) (n : Z) :
  0 <= n ->
  arabic_to_roman (n + 1000 * Z.of_nat k)
  = repeated "m" (N.of_nat k) +:+ arabic_to_roman n.
Proof.
  intros Hn. induction k as [|k IH].
  - replace (n + 1000 * Z.of_nat 0) with n by lia. reflexivity.
  - rewrite arabic_to_roman_thousand by lia.
    replace (n + 1000 * Z.of_nat (S k) - 1000) with (n + 1000 * Z.of_nat k)
      by lia.
    rewrite IH. unfold repeated.
    rewrite Nat2N.inj_succ, N.iter_succ. reflexivity.
Qed.

Lemma arabic_to_roman_thousands_witness :
  arabic_to_roman (321 + 1000 * Z.of_nat 5)
  = repeated "m" (N.of_nat 5) +:+ arabic_to_roman 321.
Proof. apply (arabic_to_roman_thousands 5 321). lia. Defined.

(** Four [m] in front make a run of four at least. *)
Lemma longest_run_mmmm (rest : string) :
  (4 <= longest_run ("mmmm" +:+ rest))%nat.
Proof.
  change ("mmmm" +:+ rest)
    with (String "m" (String "m" (String "m" (String "m" rest)))).
  assert (1 <= run_at_head (String "m" rest))%nat as Hhead.
  { destruct rest as [|d rest]; cbn [run_at_head]; [lia|].
    destruct (Ascii.eqb "m" d); lia. }
  assert (run_at_head (String "m" (String "m" (String "m" (String "m" rest))))
          = S (S (S (run_at_head (String "m" rest))))) as Hrun
    by reflexivity.
  cbn [longest_run]. rewrite Hrun. lia.
Qed.

(** X4. Below 4000 no letter stands more than three times in a row; from
    4000 on the numeral starts with four [m]. *)
Theorem arabic_to_roman_runs (n : Z) :
  (0 <= n < 4000 -> (longest_run (arabic_to_roman n) <= 3)%nat) /\
  (4000 <= n ->
   exists rest, arabic_to_roman n = "mmmm" +:+ rest /\
     (4 <= longest_run (arabic_to_roman n))%nat).
Proof.
  split; [apply small_numerals|].
  intros Hn.
  assert (arabic_to_roman n
          = "mmmm" +:+ arabic_to_roman (n - 1000 - 1000 - 1000 - 1000))
    as Hfour.
  { rewrite (arabic_to_roman_thousand n) by lia.
    rewrite (arabic_to_roman_thousand (n - 1000)) by lia.
    rewrite (arabic_to_roman_thousand (n - 1000 - 1000)) by lia.
    rewrite (arabic_to_roman_thousand (n - 1000 - 1000 - 1000)) by lia.
    generalize (arabic_to_roman (n - 1000 - 1000 - 1000 - 1000)).
    intros rest. reflexivity. }
  exists (arabic_to_roman (n - 1000 - 1000 - 1000 - 1000)).
  split; [exact Hfour|]. rewrite Hfour. apply longest_run_mmmm.
Qed.

Lemma arabic_to_roman_runs_witness :
  (longest_run (arabic_to_roman 3888) <= 3)%nat /\
  exists rest, arabic_to_roman 4001 = "mmmm" +:+ rest /\
    (4 <= longest_run (arabic_to_roman 4001))%nat.
Proof.
  split.
  - apply (proj1 (arabic_to_roman_runs 3888)). lia.
  - apply (proj2 (arabic_to_roman_runs 4001)). lia.
Defined.

(** ** The generator [counter] *)

(** The item of index [k] of a generator with an end, from any state: it is
    there when [current] before the first and before the last of the tests
    is below the end. *)
Lemma nth_item_bounded (k : nat) :
  forall current e incriment roman,
    Counter.nth_item k (Counter.mk current (Some e) incriment roman)
    = if Z.max current (current + Z.of_nat k * incriment) <? e
      then Some (Counter.label roman
                   (current + (Z.of_nat k + 1) * incriment))
      else None.
Proof.
  induction k as [|k IH]; intros current e incriment roman;
    cbn [Counter.nth_item]; unfold Counter.next;
    cbn [Counter.end_ Counter.current Counter.incriment Counter.roman].
  - replace (current + Z.of_nat 0 * incriment) with current by lia.
    rewrite Z.max_id. replace (current + (Z.of_nat 0 + 1) * incriment)
      with (current + incriment) by lia.
    by destruct (current <? e).
  - assert (0 <= incriment -> 0 <= Z.of_nat k * incriment) by nia.
    assert (incriment < 0 -> Z.of_nat k * incriment <= 0) by nia.
    destruct (Z.ltb_spec current e).
    + rewrite IH.
      replace (current + incriment + (Z.of_nat k + 1) * incriment)
        with (current + (Z.of_nat (S k) + 1) * incriment) by lia.
      replace (Z.of_nat (S k) * incriment)
        with (incriment + Z.of_nat k * incriment) by lia.
      destruct (Z.ltb_spec (Z.max (current + incriment)
                  (current + incriment + Z.of_nat k * incriment)) e),
        (Z.ltb_spec (Z.max current
                  (current + (incriment + Z.of_nat k * incriment))) e);
        try done; lia.
    + destruct (Z.ltb_spec (Z.max current
                  (current + Z.of_nat (S k) * incriment)) e); [lia|done].
Qed.

Lemma nth_item_unbounded (k : nat) :
  forall current incriment roman,
    Counter.nth_item k (Counter.mk current None incriment roman)
    = Some (Counter.label roman (current + (Z.of_nat k + 1) * incriment)).
Proof.
  induction k as [|k IH]; intros current incriment roman;
    cbn [Counter.nth_item]; unfold Counter.next;
    cbn [Counter.end_ Counter.current Counter.incriment Counter.roman].
  - do 2 f_equal. lia.
  - rewrite IH. do 2 f_equal. lia.
Qed.

(** X5. With an end, the item of index [k] of [counter] is the label of
    [start + k * incriment]; it is yielded exactly when both
    [start - incriment] and [start + (k - 1) * incriment] are below the
    end. *)
Theorem counter_item (k : nat) (start e incriment : Z) (roman : bool) :
  Counter.nth_item k (Counter.counter start (Some e) incriment roman)
  = if Z.max (start - incriment) (start + (Z.of_nat k - 1) * incriment) <? e
    then Some (Counter.label roman (start + Z.of_nat k * incriment))
    else None.
Proof.
  unfold Counter.counter. rewrite nth_item_bounded.
  replace (start - incriment + Z.of_nat k * incriment)
    with (start + (Z.of_nat k - 1) * incriment) by lia.
  replace (start - incriment + (Z.of_nat k + 1) * incriment)
    with (start + Z.of_nat k * incriment) by lia.
  reflexivity.
Qed.

(** X6. [counter] never stops when it has no end, and when its increment
    is not positive and [start - incriment] is below the end: every index
    has its item. *)
Theorem counter_endless (k : nat) (start incriment : Z) (end_ : option Z)
    (roman : bool) :
  end_ = None \/
  (exists e, end_ = Some e /\ incriment <= 0 /\ start - incriment < e) ->
  Counter.nth_item k (Counter.counter start end_ incriment roman)
  = Some (Counter.label roman (start + Z.of_nat k * incriment)).
Proof.
  intros [->|(e & -> & Hinc & Hlt)]; unfold Counter.counter.
  - rewrite nth_item_unbounded. do 2 f_equal. lia.
  - rewrite nth_item_bounded.
    assert (Z.of_nat k * incriment <= 0) by nia.
    destruct (Z.ltb_spec (Z.max (start - incriment)
                (start - incriment + Z.of_nat k * incriment)) e); [|lia].
    do 2 f_equal. lia.
Qed.

Lemma counter_endless_witness :
  Counter.nth_item 7 (Counter.counter 1 None 1 false) = Some "8" /\
  Counter.nth_item 7 (Counter.counter 10 (Some 20) (-1) false) = Some "3".
Proof.
  split.
  - apply (counter_endless 7 1 1 None false). by left.
  - apply (counter_endless 7 10 (-1) (Some 20) false).
    right. exists 20. repeat split; lia.
Defined.

(** X7. With the default increment and [start <= end], [counter] yields
    the labels of [start], [start + 1], ... up to and with [end] itself,
    and then stops: [end - start + 1] items. *)
Theorem counter_includes_end (start e : Z) (roman : bool) (k : nat) :
  start <= e ->
  Counter.nth_item k (Counter.counter start (Some e) 1 roman)
  = if Z.of_nat k <=? e - start
    then Some (Counter.label roman (start + Z.of_nat k))
    else None.
Proof.
  intros Hle. unfold Counter.counter. rewrite nth_item_bounded.
  destruct (Z.leb_spec (Z.of_nat k) (e - start)),
    (Z.ltb_spec (Z.max (start - 1) (start - 1 + Z.of_nat k * 1)) e);
    try lia; [|done].
  do 2 f_equal. lia.
Qed.

Lemma counter_includes_end_witness :
  Counter.nth_item 3 (Counter.counter 0 (Some 3) 1 false) = Some "3" /\
  Counter.nth_item 4 (Counter.counter 0 (Some 3) 1 false) = None.
Proof.
  split.
  - apply (counter_includes_end 0 3 false 3). lia.
  - apply (counter_includes_end 0 3 false 4). lia.
Defined.

(** X8. The labels that [counter] yields for a start that is not negative
    and a positive increment are all different, in arabic and in roman. *)
Theorem counter_labels_distinct (start incriment : Z) (end_ : option Z)
    (roman : bool) (j k : nat) (x : string) :
  0 <= start -> 0 < incriment ->
  Counter.nth_item j (Counter.counter start end_ incriment roman) = Some x ->
  Counter.nth_item k (Counter.counter start end_ incriment roman) = Some x ->
  j = k.
Proof.
  intros Hstart Hinc Hj Hk.
  assert (forall i,
            Counter.nth_item i (Counter.counter start end_ incriment roman)
            = Some x ->
            x = Counter.label roman (start + Z.of_nat i * incriment)) as Hlab.
  { intros i Hi. destruct end_ as [e|].
    - unfold Counter.counter in Hi. rewrite nth_item_bounded in Hi.
      destruct (_ <? _); [|discriminate].
      injection Hi as <-. f_equal. lia.
    - unfold Counter.counter in Hi. rewrite nth_item_unbounded in Hi.
      injection Hi as <-. f_equal. lia. }
  pose proof (Hlab j Hj) as Ej. pose proof (Hlab k Hk) as Ek.
  rewrite Ej in Ek. clear Hlab Hj Hk Ej.
  assert (0 <= Z.of_nat j * incriment) by nia.
  assert (0 <= Z.of_nat k * incriment) by nia.
  assert (start + Z.of_nat j * incriment = start + Z.of_nat k * incriment)
    as Heq.
  { destruct roman; cbn [Counter.label] in Ek.
    - rewrite <- (roman_value_arabic
                    (Z.to_nat (start + Z.of_nat j * incriment))
                    (start + Z.of_nat j * incriment)) by lia.
      rewrite Ek.
      apply (roman_value_arabic (Z.to_nat (start + Z.of_nat k * incriment))).
      lia.
    - unfold PyNum.str_int in Ek. by apply (inj pretty) in Ek. }
  nia.
Qed.

Lemma counter_labels_distinct_witness : 2%nat = 2%nat.
Proof.
  apply (counter_labels_distinct 1 1 None true 2 2 "iii");
    [lia | lia | reflexivity | reflexivity].
Defined.
